(** * p0ker: the Monte-Carlo house-edge simulator

    A shallow embedding of [backend/config.py] and [backend/engine.py],
    in two readings of the numbers.

    Exact reading.  Python's [int] is [Z] and a [float] is the rational
    it denotes ([Q]); [+], [-], [*], [/], [<], [>] and [round] are taken
    at their mathematical value.  This is the reading of the
    specification, whose quantities are reals; the statements about the
    branch structure, the loops, the bound on the accumulator, the
    generator and the configuration are made on it.

    Binary64 reading ([Module binary64]).  Numbers as Python computes
    them: unbounded [int], IEEE 754 binary64 [float] with infinities and
    NaN, conversion of an [int] operand with its [OverflowError], and
    [round] on the exact binary value.  The statements about the value
    returned after the division and about exceptions are made on it.

    Effects.  The engine object carries one mutable attribute
    ([house_net]) next to a reference to its [Config]; [random.random()]
    reads and advances the hidden state of the module-level generator.
    Both are threaded through a state-and-exception monad [Py]. *)

From Stdlib Require Import ZArith QArith Qabs Qminmax List String Lia Lqa Bool.
From Stdlib Require Import SpecFloat.
Import ListNotations.

Open Scope Q_scope.

(** ** backend/config.py *)

Module config.

(** [@dataclass class Config]: eight fields, no behaviour, no validation. *)
Record Config : Type := mkConfig {
  players : Z;
  ante : Q;
  rounds : Z;
  target_edge : Q;
  min_edge : Q;
  max_edge : Q;
  bust_multiplier : Q;
  tube_initial : list (string * Q)
}.

(** The dataclass defaults, [Config()]. *)
Definition default : Config := {|
  players := 4;
  ante := 5;
  rounds := 20000;
  target_edge := 0.05;
  min_edge := 0.03;
  max_edge := 0.07;
  bust_multiplier := 1.0;
  tube_initial :=
    [ ("ST"%string, 5.0); ("FL"%string, 10.0); ("FH"%string, 15.0);
      ("SF"%string, 20.0); ("RF"%string, 25.0) ]
|}.

End config.
Export config.

(** ** The Python fragment the engine runs on *)

(** Exceptions of the exact reading: division is its only partial
    operation ([binary64.exn] adds the [OverflowError] of conversions). *)
Inductive exn : Type :=
| ZeroDivisionError.

(** [random]'s hidden generator state: the sequence of values that
    [random.random()] is going to return, and how many were consumed. *)
Record random_state : Type := mkRandom {
  tape : nat -> Q;
  cursor : nat
}.

(** Instance attributes of a [GameEngine] object. *)
Record GameEngine : Type := mkEngine {
  config : Config;
  house_net : Q
}.

(** What a method call can read and write: [self] and the generator. *)
Record World : Type := mkWorld {
  self : GameEngine;
  rng : random_state
}.

(** A computation either raises or returns a value and the new world. *)
Definition Py (A : Type) : Type := World -> exn + (A * World).

Definition ret {A} (a : A) : Py A := fun w => inr (a, w).

Definition raise {A} (e : exn) : Py A := fun _ => inl e.

Definition bind {A B} (m : Py A) (k : A -> Py B) : Py B :=
  fun w =>
    match m w with
    | inl e => inl e
    | inr (a, w') => k a w'
    end.

Notation "x <- m ;; k" := (bind m (fun x => k))
  (at level 61, m at next level, right associativity).
Notation "m ;; k" := (bind m (fun _ => k))
  (at level 61, right associativity).

(** [self.config] *)
Definition get_config : Py Config :=
  fun w => inr (config (self w), w).

(** [self.house_net] *)
Definition get_house_net : Py Q :=
  fun w => inr (house_net (self w), w).

(** [self.house_net = v] *)
Definition set_house_net (v : Q) : Py unit :=
  fun w =>
    inr (tt, {| self := {| config := config (self w); house_net := v |};
                rng := rng w |}).

(** [random.random()] *)
Definition random : Py Q :=
  fun w =>
    let g := rng w in
    inr (tape g (cursor g),
         {| self := self w;
            rng := {| tape := tape g; cursor := S (cursor g) |} |}).

(** [for _ in range(n): body], [n] already evaluated.  [range(n)] is
    empty when [n <= 0]. *)
Fixpoint repeat_body (n : nat) (body : Py unit) : Py unit :=
  match n with
  | O => ret tt
  | S n' => body ;; repeat_body n' body
  end.

Definition for_range (n : Z) (body : Py unit) : Py unit :=
  repeat_body (Z.to_nat n) body.

(** [x < y] on numbers. *)
Definition Qltb (x y : Q) : bool := negb (Qle_bool y x).

(** [x / y]: true division, raising on a zero divisor; the quotient is
    exact here and rounded to binary64 in [binary64.truediv]. *)
Definition truediv (x y : Q) : Py Q :=
  if Qeq_bool y 0 then raise ZeroDivisionError else ret (x / y).

(** Nearest integer to [p / q] ([q > 0]), ties to the even neighbour. *)
Definition round_half_even (p : Z) (q : positive) : Z :=
  let d := (p / Zpos q)%Z in
  let r := (p mod Zpos q)%Z in
  match (2 * r ?= Zpos q)%Z with
  | Lt => d
  | Gt => (d + 1)%Z
  | Eq => if Z.even d then d else (d + 1)%Z
  end.

(** [10 ** n] *)
Fixpoint pow10 (n : nat) : positive :=
  match n with
  | O => 1%positive
  | S n' => (10 * pow10 n')%positive
  end.

(** [round(x, ndigits)] for a float [x] and [ndigits >= 0]: the multiple
    of [10 ** -ndigits] nearest to [x], ties to even. *)
Definition round (x : Q) (ndigits : nat) : Q :=
  let s := pow10 ndigits in
  Qred (Qmake (round_half_even (Qnum x * Zpos s) (Qden x)) s).

(** ** backend/engine.py *)

Module engine.

(** [GameEngine.__init__(self, config)] *)
Definition __init__ (cfg : Config) : GameEngine :=
  {| config := cfg; house_net := 0.0 |}.

(** The body of the [for] loop of [run_round]: one player-turn, the
    updates at their exact value ([binary64.player_turn] rounds them). *)
Definition player_turn : Py unit :=
  r <- random ;;
  if Qltb r 0.47 then
    h <- get_house_net ;;
    c <- get_config ;;
    set_house_net (h - ante c)
  else if Qltb r 0.95 then
    h <- get_house_net ;;
    c <- get_config ;;
    set_house_net (h + ante c)
  else
    h <- get_house_net ;;
    c <- get_config ;;
    c' <- get_config ;;
    set_house_net (h + ante c * bust_multiplier c').

(** [GameEngine.run_round(self)] *)
Definition run_round : Py unit :=
  c <- get_config ;;
  for_range (players c) player_turn.

(** The dictionary [simulate] returns. *)
Record Result : Type := mkResult {
  result_house_net : Q;
  result_house_edge : Q
}.

(** [GameEngine.simulate(self)] *)
Definition simulate : Py Result :=
  set_house_net 0.0 ;;
  c <- get_config ;;
  for_range (rounds c) run_round ;;
  c1 <- get_config ;;
  c2 <- get_config ;;
  c3 <- get_config ;;
  let total_input := inject_Z (rounds c1 * players c2) * ante c3 in
  house_edge <-
    (if Qltb 0 total_input then
       h <- get_house_net ;;
       truediv h total_input
     else ret 0.0) ;;
  h <- get_house_net ;;
  ret {| result_house_net := round h 2;
         result_house_edge := round house_edge 4 |}.

End engine.
Export engine.

(** ** Vocabulary of the statements *)

(** The amount wagered, [rounds * players * ante], of a configuration. *)
Definition total_input_of (c : Config) : Q :=
  inject_Z (rounds c * players c) * ante c.


(** A world in which a freshly constructed engine meets a generator that
    is about to return [draws 0], [draws 1], ... *)
Definition fresh (cfg : Config) (draws : nat -> Q) : World :=
  {| self := __init__ cfg; rng := {| tape := draws; cursor := 0 |} |}.


(** [n] successive calls [eng.simulate()], results collected in order. *)
Fixpoint simulate_calls (n : nat) : Py (list Result) :=
  match n with
  | O => ret []
  | S n' => r <- simulate ;; rs <- simulate_calls n' ;; ret (r :: rs)
  end.

(** ** Closed forms of the loops

    The accumulator after one turn, after [n] turns and after [m] rounds,
    as functions of the configuration, the starting value, the tape and the
    position on the tape.  They are proof devices: each is shown equal to
    what the monadic code computes. *)

Definition turn_net (c : Config) (h r : Q) : Q :=
  if Qltb r 0.47 then h - ante c
  else if Qltb r 0.95 then h + ante c
  else h + ante c * bust_multiplier c.

Fixpoint turns_net (c : Config) (t : nat -> Q) (n k : nat) (h : Q) : Q :=
  match n with
  | O => h
  | S n' => turns_net c t n' (S k) (turn_net c h (t k))
  end.

Fixpoint rounds_net (c : Config) (t : nat -> Q) (m k : nat) (h : Q) : Q :=
  match m with
  | O => h
  | S m' =>
      let p := Z.to_nat (players c) in
      rounds_net c t m' (p + k) (turns_net c t p k h)
  end.

Definition world (c : Config) (h : Q) (t : nat -> Q) (k : nat) : World :=
  {| self := {| config := c; house_net := h |};
     rng := {| tape := t; cursor := k |} |}.

(** Tape position after [m] rounds started at position [k]. *)
Definition after_rounds (c : Config) (m k : nat) : nat :=
  (m * Z.to_nat (players c) + k)%nat.

(** The [house_edge] expression of [simulate], for accumulator [h]. *)
Definition edge_of (c : Config) (h : Q) : Q :=
  if Qltb 0 (total_input_of c) then h / total_input_of c else 0.0.

(** [Config(players=p, ante=a, rounds=n, bust_multiplier=b)]: the other
    fields at their defaults. *)
Definition stakes (p : Z) (a : Q) (n : Z) (b : Q) : Config :=
  {| players := p; ante := a; rounds := n;
     target_edge := target_edge config.default;
     min_edge := min_edge config.default;
     max_edge := max_edge config.default;
     bust_multiplier := b;
     tube_initial := tube_initial config.default |}.


(** The most one player-turn can move the accumulator, in absolute value. *)
Definition stake_bound (c : Config) : Q :=
  ante c * Qmax 1 (Qabs (bust_multiplier c)).







(** ** The engine on Python's numbers

    The same two source files, with numbers as Python has them: an [int]
    is an unbounded integer, a [float] is an IEEE 754 binary64 value
    ([spec_float] at precision 53, with the operations of [SpecFloat],
    all round-to-nearest-even), an [int] operand that meets a float is
    converted first and raises [OverflowError] when it has no float, and
    [round] rounds the exact value of its argument. *)

Module binary64.

(** IEEE 754 binary64: 53 bits of precision, infinities at [2 ** 1024]. *)
Definition prec : Z := 53.
Definition emax : Z := 1024.
Definition float : Type := spec_float.

Definition fadd : float -> float -> float := SFadd prec emax.
Definition fsub : float -> float -> float := SFsub prec emax.
Definition fmul : float -> float -> float := SFmul prec emax.
Definition fdiv : float -> float -> float := SFdiv prec emax.
Definition flt : float -> float -> bool := SFltb.

(** The float nearest to the integer [z] (an infinity beyond the range). *)
Definition of_int (z : Z) : float := binary_normalize prec emax z 0 false.

(** The float nearest to [p / q]: what a decimal literal denotes. *)
Definition literal (p q : positive) : float :=
  fdiv (S754_finite false p 0) (S754_finite false q 0).

(** [0.0] *)
Definition zero : float := S754_zero false.

(** [x == 0.0] *)
Definition is_zero (x : float) : bool :=
  match x with
  | S754_zero _ => true
  | _ => false
  end.

(** A Python number: an [int] or a [float]. *)
Inductive num : Type :=
| Int (z : Z)
| Float (f : float).

Inductive exn : Type :=
| ZeroDivisionError
| OverflowError.

(** The conversion the arithmetic operators apply to an operand that
    meets a float: an [int] too large for a float raises. *)
Definition to_float (x : num) : exn + float :=
  match x with
  | Float f => inr f
  | Int z =>
      match of_int z with
      | S754_infinity _ => inl OverflowError
      | f => inr f
      end
  end.

(** [x - y] and [x + y], [x] a float. *)
Definition sub (x : float) (y : num) : exn + float :=
  match to_float y with
  | inl e => inl e
  | inr b => inr (fsub x b)
  end.

Definition add (x : float) (y : num) : exn + float :=
  match to_float y with
  | inl e => inl e
  | inr b => inr (fadd x b)
  end.

(** [x * y] *)
Definition mul (x y : num) : exn + num :=
  match x, y with
  | Int a, Int b => inr (Int (a * b))
  | _, _ =>
      match to_float x with
      | inl e => inl e
      | inr a =>
          match to_float y with
          | inl e => inl e
          | inr b => inr (Float (fmul a b))
          end
      end
  end.

(** [x > 0] *)
Definition gt0 (x : num) : bool :=
  match x with
  | Int z => (0 <? z)%Z
  | Float f => flt zero f
  end.

(** [x / y], [x] a float. *)
Definition truediv (x : float) (y : num) : exn + float :=
  match to_float y with
  | inl e => inl e
  | inr b => if is_zero b then inl ZeroDivisionError else inr (fdiv x b)
  end.

(** [round(x, ndigits)] for a float [x] and [ndigits >= 0]: the exact
    value of [x] is rounded, ties to even, to a multiple of
    [10 ** -ndigits], and the float nearest to that is returned.  Zeros,
    infinities, NaN and integral floats come back unchanged. *)
Definition round (x : float) (ndigits : nat) : float :=
  match x with
  | S754_finite s m (Zneg k) =>
      match round_half_even (Zpos m * Zpos (pow10 ndigits)) (2 ^ k) with
      | Zpos q => fdiv (S754_finite s q 0) (S754_finite false (pow10 ndigits) 0)
      | _ => S754_zero s
      end
  | _ => x
  end.

(** [@dataclass class Config] *)
Record Config : Type := mkConfig {
  players : Z;
  ante : num;
  rounds : Z;
  target_edge : num;
  min_edge : num;
  max_edge : num;
  bust_multiplier : num;
  tube_initial : list (string * num)
}.

Definition default : Config := {|
  players := 4;
  ante := Int 5;
  rounds := 20000;
  target_edge := Float (literal 5 100);
  min_edge := Float (literal 3 100);
  max_edge := Float (literal 7 100);
  bust_multiplier := Float (of_int 1);
  tube_initial :=
    [ ("ST"%string, Float (of_int 5)); ("FL"%string, Float (of_int 10));
      ("FH"%string, Float (of_int 15)); ("SF"%string, Float (of_int 20));
      ("RF"%string, Float (of_int 25)) ]
|}.

Record random_state : Type := mkRandom {
  tape : nat -> float;
  cursor : nat
}.

Record GameEngine : Type := mkEngine {
  config : Config;
  house_net : float
}.

Record World : Type := mkWorld {
  self : GameEngine;
  rng : random_state
}.

Definition Py (A : Type) : Type := World -> exn + (A * World).

Definition ret {A} (a : A) : Py A := fun w => inr (a, w).

Definition bind {A B} (m : Py A) (k : A -> Py B) : Py B :=
  fun w =>
    match m w with
    | inl e => inl e
    | inr (a, w') => k a w'
    end.

(** An operation that touches no state. *)
Definition lift {A} (r : exn + A) : Py A :=
  fun w =>
    match r with
    | inl e => inl e
    | inr a => inr (a, w)
    end.

Declare Scope py_scope.
Notation "x <- m ;; k" := (bind m (fun x => k))
  (at level 61, m at next level, right associativity) : py_scope.
Notation "m ;; k" := (bind m (fun _ => k))
  (at level 61, right associativity) : py_scope.
#[local] Open Scope py_scope.

Definition get_config : Py Config :=
  fun w => inr (config (self w), w).

Definition get_house_net : Py float :=
  fun w => inr (house_net (self w), w).

Definition set_house_net (v : float) : Py unit :=
  fun w =>
    inr (tt, {| self := {| config := config (self w); house_net := v |};
                rng := rng w |}).

Definition random : Py float :=
  fun w =>
    let g := rng w in
    inr (tape g (cursor g),
         {| self := self w;
            rng := {| tape := tape g; cursor := S (cursor g) |} |}).

Fixpoint repeat_body (n : nat) (body : Py unit) : Py unit :=
  match n with
  | O => ret tt
  | S n' => body ;; repeat_body n' body
  end.

Definition for_range (n : Z) (body : Py unit) : Py unit :=
  repeat_body (Z.to_nat n) body.

(** [GameEngine.__init__(self, config)] *)
Definition __init__ (cfg : Config) : GameEngine :=
  {| config := cfg; house_net := zero |}.

(** One pass through the body of [run_round]'s loop. *)
Definition player_turn : Py unit :=
  r <- random ;;
  if flt r (literal 47 100) then
    h <- get_house_net ;;
    c <- get_config ;;
    v <- lift (sub h (ante c)) ;;
    set_house_net v
  else if flt r (literal 95 100) then
    h <- get_house_net ;;
    c <- get_config ;;
    v <- lift (add h (ante c)) ;;
    set_house_net v
  else
    h <- get_house_net ;;
    c <- get_config ;;
    c' <- get_config ;;
    p <- lift (mul (ante c) (bust_multiplier c')) ;;
    v <- lift (add h p) ;;
    set_house_net v.

(** [GameEngine.run_round(self)] *)
Definition run_round : Py unit :=
  c <- get_config ;;
  for_range (players c) player_turn.

Record Result : Type := mkResult {
  result_house_net : float;
  result_house_edge : float
}.

(** [GameEngine.simulate(self)] *)
Definition simulate : Py Result :=
  set_house_net zero ;;
  c <- get_config ;;
  for_range (rounds c) run_round ;;
  c1 <- get_config ;;
  c2 <- get_config ;;
  c3 <- get_config ;;
  total_input <- lift (mul (Int (rounds c1 * players c2)) (ante c3)) ;;
  house_edge <-
    (if gt0 total_input then
       h <- get_house_net ;;
       lift (truediv h total_input)
     else ret zero) ;;
  h <- get_house_net ;;
  ret {| result_house_net := round h 2;
         result_house_edge := round house_edge 4 |}.

(** [n] successive calls [eng.simulate()]. *)
Fixpoint simulate_calls (n : nat) : Py (list Result) :=
  match n with
  | O => ret []
  | S n' => r <- simulate ;; rs <- simulate_calls n' ;; ret (r :: rs)
  end.

End binary64.



(** ** Vocabulary and closed forms for the binary64 engine *)

Definition b64_world (c : binary64.Config) (h : binary64.float)
    (t : nat -> binary64.float) (k : nat) : binary64.World :=
  {| binary64.self := {| binary64.config := c; binary64.house_net := h |};
     binary64.rng := {| binary64.tape := t; binary64.cursor := k |} |}.

(** A newly constructed engine in front of the draws [draws 0], ... *)
Definition b64_fresh (cfg : binary64.Config)
    (draws : nat -> binary64.float) : binary64.World :=
  {| binary64.self := binary64.__init__ cfg;
     binary64.rng := {| binary64.tape := draws; binary64.cursor := 0 |} |}.

(** [Config(players=p, ante=a, rounds=n, bust_multiplier=b)] *)
Definition b64_stakes (p : Z) (a : binary64.num) (n : Z)
    (b : binary64.num) : binary64.Config :=
  {| binary64.players := p; binary64.ante := a; binary64.rounds := n;
     binary64.target_edge := binary64.target_edge binary64.default;
     binary64.min_edge := binary64.min_edge binary64.default;
     binary64.max_edge := binary64.max_edge binary64.default;
     binary64.bust_multiplier := b;
     binary64.tube_initial := binary64.tube_initial binary64.default |}.

(** The accumulator after one turn with draw [r], or the exception. *)
Definition b64_turn (c : binary64.Config) (h r : binary64.float) :
    binary64.exn + binary64.float :=
  if binary64.flt r (binary64.literal 47 100) then
    binary64.sub h (binary64.ante c)
  else if binary64.flt r (binary64.literal 95 100) then
    binary64.add h (binary64.ante c)
  else
    match binary64.mul (binary64.ante c) (binary64.bust_multiplier c) with
    | inl e => inl e
    | inr p => binary64.add h p
    end.

Fixpoint b64_turns (c : binary64.Config) (t : nat -> binary64.float)
    (n k : nat) (h : binary64.float) : binary64.exn + binary64.float :=
  match n with
  | O => inr h
  | S n' =>
      match b64_turn c h (t k) with
      | inl e => inl e
      | inr h' => b64_turns c t n' (S k) h'
      end
  end.

Fixpoint b64_rounds (c : binary64.Config) (t : nat -> binary64.float)
    (m k : nat) (h : binary64.float) : binary64.exn + binary64.float :=
  match m with
  | O => inr h
  | S m' =>
      let p := Z.to_nat (binary64.players c) in
      match b64_turns c t p k h with
      | inl e => inl e
      | inr h' => b64_rounds c t m' (p + k) h'
      end
  end.

(** [rounds * players * ante] *)
Definition b64_total (c : binary64.Config) : binary64.exn + binary64.num :=
  binary64.mul (binary64.Int (binary64.rounds c * binary64.players c))
               (binary64.ante c).

(** The [house_edge] expression of [simulate]. *)
Definition b64_edge (total : binary64.num) (h : binary64.float) :
    binary64.exn + binary64.float :=
  if binary64.gt0 total then binary64.truediv h total else inr binary64.zero.

(** [x == 0] for a number. *)
Definition b64_is_zero (x : binary64.num) : bool :=
  match x with
  | binary64.Int z => (z =? 0)%Z
  | binary64.Float f => binary64.is_zero f
  end.

(** The integer [z] has a float: [float(z)] does not overflow. *)
Definition fits (z : Z) : bool :=
  match binary64.of_int z with
  | S754_infinity _ => false
  | _ => true
  end.

(** Every integer a [simulate] call may have to convert has a float:
    [ante] and [rounds * players * ante] when [ante] is an [int],
    [rounds * players] when it is a float, and [bust_multiplier], or
    [ante * bust_multiplier] when both are ints. *)
Definition convertible (c : binary64.Config) : bool :=
  let n := (binary64.rounds c * binary64.players c)%Z in
  match binary64.ante c, binary64.bust_multiplier c with
  | binary64.Float _, binary64.Float _ => fits n
  | binary64.Float _, binary64.Int b => fits b && fits n
  | binary64.Int a, binary64.Float _ => fits a && fits (n * a)
  | binary64.Int a, binary64.Int b => fits a && fits (a * b) && fits (n * a)
  end.

(** Draws one binary64 [simulate] call reads. *)
Definition b64_draws_of (c : binary64.Config) : nat :=
  (Z.to_nat (binary64.rounds c) * Z.to_nat (binary64.players c))%nat.

(** The tape [t] from position [k] on. *)
Definition b64_rest (k : nat) (t : nat -> binary64.float) :
    nat -> binary64.float :=
  fun i => t (k + i)%nat.

(** ** Auxiliary facts *)


Lemma Qltb_lt (x y : Q) : Qltb x y = true <-> x < y.
Proof.
  unfold Qltb. rewrite negb_true_iff.
  split; intros H.
  - apply Qnot_le_lt. intros Hle. apply Qle_bool_iff in Hle. congruence.
  - destruct (Qle_bool y x) eqn:E; [|reflexivity].
    apply Qle_bool_iff in E. exfalso. exact (Qlt_not_le _ _ H E).
Qed.

Lemma Qltb_ge (x y : Q) : Qltb x y = false <-> y <= x.
Proof.
  unfold Qltb. rewrite negb_false_iff. apply Qle_bool_iff.
Qed.

Lemma player_turn_run c h t k :
  player_turn (world c h t k) = inr (tt, world c (turn_net c h (t k)) t (S k)).
Proof.
  unfold player_turn, turn_net, bind, random; cbn.
  destruct (Qltb (t k) 0.47); [reflexivity|].
  destruct (Qltb (t k) 0.95); reflexivity.
Qed.

Lemma repeat_turns_run c t n : forall k h,
  repeat_body n player_turn (world c h t k)
  = inr (tt, world c (turns_net c t n k h) t (n + k)%nat).
Proof.
  induction n as [|n IH]; intros k h; cbn [repeat_body turns_net].
  - reflexivity.
  - unfold bind at 1. rewrite player_turn_run, IH.
    now rewrite Nat.add_succ_r.
Qed.

Lemma run_round_run c h t k :
  run_round (world c h t k)
  = inr (tt, world c (turns_net c t (Z.to_nat (players c)) k h) t
                   (Z.to_nat (players c) + k)%nat).
Proof.
  unfold run_round, bind, get_config, for_range; cbn.
  apply repeat_turns_run.
Qed.

Lemma repeat_rounds_run c t m : forall k h,
  repeat_body m run_round (world c h t k)
  = inr (tt, world c (rounds_net c t m k h) t (after_rounds c m k)).
Proof.
  unfold after_rounds.
  induction m as [|m IH]; intros k h; cbn [repeat_body rounds_net].
  - reflexivity.
  - unfold bind at 1. rewrite run_round_run, IH.
    do 3 f_equal. cbn [Nat.mul]. lia.
Qed.

Lemma simulate_run c h0 t k :
  let m := Z.to_nat (rounds c) in
  let h := rounds_net c t m k 0.0 in
  simulate (world c h0 t k)
  = inr ({| result_house_net := round h 2;
            result_house_edge := round (edge_of c h) 4 |},
         world c h t (after_rounds c m k)).
Proof.
  intros m h. unfold simulate.
  unfold bind at 1. cbn [set_house_net self config rng world].
  unfold bind at 1. cbn [get_config self config world].
  unfold bind at 1. unfold for_range.
  change {| self := {| config := c; house_net := 0.0 |};
            rng := {| tape := t; cursor := k |} |} with (world c 0.0 t k).
  rewrite repeat_rounds_run. fold m h.
  unfold bind, get_config, get_house_net, edge_of, total_input_of; cbn.
  destruct (Qltb 0 (inject_Z (rounds c * players c) * ante c)) eqn:E.
  - unfold truediv.
    destruct (Qeq_bool (inject_Z (rounds c * players c) * ante c) 0) eqn:E0.
    + apply Qltb_lt in E. apply Qeq_bool_iff in E0.
      rewrite E0 in E. exfalso. exact (Qlt_irrefl _ E).
    + reflexivity.
  - reflexivity.
Qed.

Lemma simulate_world (w : World) :
  let c := config (self w) in
  let m := Z.to_nat (rounds c) in
  let h := rounds_net c (tape (rng w)) m (cursor (rng w)) 0.0 in
  simulate w
  = inr ({| result_house_net := round h 2;
            result_house_edge := round (edge_of c h) 4 |},
         world c h (tape (rng w)) (after_rounds c m (cursor (rng w)))).
Proof.
  destruct w as [[c h0] [t k]]. exact (simulate_run c h0 t k).
Qed.


(** ** The house edge (C1) *)

(** C1, as stated, fails: with [Config(players=1, ante=-5, rounds=1)] and
    a draw of 0.0 the denominator is -5, the accumulator is 5.0, and
    [simulate] returns [house_edge] 0.0, not [round(5.0 / -5, 4) = -1.0]. *)
Lemma house_edge_negative_denominator :
  let c := stakes 1 (-5) 1 1.0 in
  ~ total_input_of c == 0 /\
  exists res w',
    simulate (fresh c (fun _ => 0)) = inr (res, w') /\
    result_house_edge res = 0 /\
    round (house_net (self w') / total_input_of c) 4 = -1 /\
    ~ result_house_edge res
      == round (house_net (self w') / total_input_of c) 4.
Proof.
  cbv zeta. split.
  - vm_compute. discriminate.
  - eexists. eexists. split; [vm_compute; reflexivity|].
    repeat split; vm_compute; discriminate.
Qed.

(** ** One player-turn (C3) *)



(** ** Degenerate configurations (C4, C5) *)



Lemma rounds_net_no_players c t m : forall k h,
  Z.to_nat (players c) = O -> rounds_net c t m k h = h.
Proof.
  induction m as [|m IH]; intros k h Hp; cbn [rounds_net].
  - reflexivity.
  - rewrite Hp. cbn [turns_net]. now apply IH.
Qed.

Lemma edge_of_zero c h : total_input_of c == 0 -> edge_of c h = 0.0.
Proof.
  intros H. unfold edge_of.
  replace (Qltb 0 (total_input_of c)) with false; [reflexivity|].
  symmetry. apply Qltb_ge. rewrite H. apply Qle_refl.
Qed.

(** C4: with [rounds = 0] or [players = 0], whatever the other fields, the
    accumulator and the draws to come, [simulate] returns
    [{"house_net": 0.0, "house_edge": 0.0}]. *)
Theorem simulate_no_rounds_or_no_players (w : World) :
  (rounds (config (self w)) = 0 \/ players (config (self w)) = 0)%Z ->
  exists w',
    simulate w = inr ({| result_house_net := 0; result_house_edge := 0 |}, w').
Proof.
  intros H. rewrite simulate_world.
  assert (Hd : total_input_of (config (self w)) == 0).
  { unfold total_input_of. destruct H as [H|H]; rewrite H.
    - cbn [Z.mul]. ring.
    - rewrite Z.mul_0_r. ring. }
  rewrite (edge_of_zero _ _ Hd).
  assert (Hn : rounds_net (config (self w)) (tape (rng w))
                 (Z.to_nat (rounds (config (self w)))) (cursor (rng w)) 0.0
               = 0.0).
  { destruct H as [H|H].
    - rewrite H. reflexivity.
    - apply rounds_net_no_players. rewrite H. reflexivity. }
  rewrite Hn. eexists. reflexivity.
Qed.

Lemma simulate_no_rounds_or_no_players_witness :
  exists w',
    simulate (fresh (stakes 0 5 10 1.0) (fun _ => 0.5))
    = inr ({| result_house_net := 0; result_house_edge := 0 |}, w').
Proof.
  apply (simulate_no_rounds_or_no_players
           (fresh (stakes 0 5 10 1.0) (fun _ => 0.5))).
  right. reflexivity.
Defined.



(** ** The all-player-wins scenario (C6) *)

(** C6: with every draw equal to 0.0 and
    [Config(players=2, ante=5, rounds=10)], [simulate] returns
    [{"house_net": -100.0, "house_edge": -1.0}] after twenty draws. *)
Theorem simulate_always_player_wins :
  exists w',
    simulate (fresh (stakes 2 5 10 (bust_multiplier config.default))
                    (fun _ => 0.0))
    = inr ({| result_house_net := -100; result_house_edge := -1 |}, w') /\
    cursor (rng w') = 20%nat.
Proof.
  eexists. split; [vm_compute; reflexivity | reflexivity].
Qed.

(** The two companion scenarios: every draw 0.99 (bust, multiplier 1.0) and
    every draw 0.5 (house wins) both give 100.0 and 1.0. *)
Example simulate_always_bust :
  exists w',
    simulate (fresh (stakes 2 5 10 1.0) (fun _ => 0.99))
    = inr ({| result_house_net := 100; result_house_edge := 1 |}, w').
Proof. eexists. vm_compute. reflexivity. Qed.

Example simulate_always_house_wins :
  exists w',
    simulate (fresh (stakes 2 5 10 1.0) (fun _ => 0.5))
    = inr ({| result_house_net := 100; result_house_edge := 1 |}, w').
Proof. eexists. vm_compute. reflexivity. Qed.

(** ** Bounding the accumulator *)


Section Bound.

Variable c : Config.
Hypothesis ante_nonneg : 0 <= ante c.

Lemma stake_bound_nonneg : 0 <= stake_bound c.
Proof.
  unfold stake_bound.
  pose proof (Q.le_max_l 1 (Qabs (bust_multiplier c))).
  nra.
Qed.




End Bound.


(** ** The accumulator bound (C2) *)


(** The sign conditions of the amended bound are needed as well: a
    negative [ante] or a negative count makes the claimed bound negative. *)
Lemma house_net_bound_negative_ante :
  let c := stakes 1 (-5) 1 1.0 in
  exists res w',
    simulate (fresh c (fun _ => 0.0)) = inr (res, w') /\
    house_net (self w') == 5 /\
    total_input_of c * Qmax 1 (Qabs (bust_multiplier c)) == -5.
Proof.
  cbv zeta. eexists. eexists. split; [vm_compute; reflexivity|].
  split; reflexivity.
Qed.

Lemma house_net_bound_negative_rounds :
  let c := stakes 1 5 (-1) 1.0 in
  exists res w',
    simulate (fresh c (fun _ => 0.0)) = inr (res, w') /\
    house_net (self w') == 0 /\
    total_input_of c * Qmax 1 (Qabs (bust_multiplier c)) == -5.
Proof.
  cbv zeta. eexists. eexists. split; [vm_compute; reflexivity|].
  split; reflexivity.
Qed.



(** ** Independence properties (C8, C9) *)








(** ** The configuration is only read (C10) *)


(** ** Accounting by outcome *)






(** ** Rounding *)


(** ** What a simulation does to the generator *)


(** ** What the result depends on *)





(** ** Tuning the bust multiplier *)






(** * The engine on binary64 *)

(** ** Conversion of integers *)

Lemma digits2_pos_size (m : positive) : digits2_pos m = Pos.size m.
Proof. induction m; cbn; congruence. Qed.

Lemma digits2_pos_bound (m : positive) :
  (2 ^ (Zpos (digits2_pos m) - 1) <= Zpos m)%Z.
Proof.
  rewrite digits2_pos_size.
  pose proof (Pos.size_le m) as H.
  assert (H' : (2 ^ Zpos (Pos.size m) <= 2 * Zpos m)%Z).
  { rewrite <- Pos2Z.inj_pow. change (2 * Zpos m)%Z with (Zpos m~0).
    apply Pos2Z.pos_le_pos. exact H. }
  replace (Zpos (Pos.size m)) with (Z.succ (Zpos (Pos.size m) - 1)) in H' by lia.
  rewrite Z.pow_succ_r in H' by lia. lia.
Qed.

Lemma shr_m_shr_1 (mrs : shr_record) :
  (0 <= shr_m mrs)%Z -> shr_m (shr_1 mrs) = Z.div2 (shr_m mrs).
Proof.
  destruct mrs as [m r s]. cbn [shr_m]. intros Hm.
  destruct m as [|[p|p|]|p]; try reflexivity. lia.
Qed.

Lemma shr_m_iter (p : positive) : forall mrs,
  (0 <= shr_m mrs)%Z ->
  shr_m (iter_pos shr_1 p mrs) = Z.shiftr (shr_m mrs) (Zpos p).
Proof.
  induction p as [p IH|p IH|]; intros mrs Hm; cbn [iter_pos].
  - assert (H1 : (0 <= shr_m (shr_1 mrs))%Z).
    { rewrite shr_m_shr_1 by exact Hm. apply Z.div2_nonneg. exact Hm. }
    assert (H2 : (0 <= shr_m (iter_pos shr_1 p (shr_1 mrs)))%Z).
    { rewrite IH by exact H1. apply Z.shiftr_nonneg. exact H1. }
    rewrite IH by exact H2. rewrite IH by exact H1.
    rewrite shr_m_shr_1 by exact Hm. rewrite Z.div2_spec.
    rewrite !Z.shiftr_shiftr by lia. f_equal. lia.
  - assert (H2 : (0 <= shr_m (iter_pos shr_1 p mrs))%Z).
    { rewrite IH by exact Hm. apply Z.shiftr_nonneg. exact Hm. }
    rewrite IH by exact H2. rewrite IH by exact Hm.
    rewrite Z.shiftr_shiftr by lia. f_equal. lia.
  - rewrite shr_m_shr_1 by exact Hm. apply Z.div2_spec.
Qed.

Lemma shr_m_of_loc m l : shr_m (shr_record_of_loc m l) = m.
Proof. destruct l as [|[| |]]; reflexivity. Qed.

(** Renormalising a positive mantissa whose exponent is not below the
    least one leaves a positive mantissa and such an exponent. *)
Lemma shr_fexp_pos (m : positive) (e : Z) (l : location) :
  (-1074 <= e)%Z ->
  exists m' e',
    shr_m (fst (shr_fexp binary64.prec binary64.emax (Zpos m) e l)) = Zpos m' /\
    snd (shr_fexp binary64.prec binary64.emax (Zpos m) e l) = e' /\
    (-1074 <= e')%Z.
Proof.
  intros He. unfold shr_fexp, shr, fexp, emin, binary64.prec, binary64.emax.
  cbn [Zdigits2].
  pose proof (digits2_pos_bound m) as Hd.
  set (d := Zpos (digits2_pos m)) in *.
  destruct (Z.max (d + e - 53) (3 - 1024 - 53) - e)%Z as [|p|p] eqn:En.
  - cbn [fst snd]. rewrite shr_m_of_loc. exists m, e. auto.
  - cbn [fst snd]. rewrite shr_m_iter by (rewrite shr_m_of_loc; lia).
    rewrite shr_m_of_loc.
    assert (Hp : (Zpos p <= d - 1)%Z) by lia.
    assert (Hq : (0 < Z.shiftr (Zpos m) (Zpos p))%Z).
    { rewrite Z.shiftr_div_pow2 by lia.
      apply Z.div_str_pos. split; [apply Z.pow_pos_nonneg; lia|].
      eapply Z.le_trans; [|exact Hd].
      apply Z.pow_le_mono_r; lia. }
    destruct (Z.shiftr (Zpos m) (Zpos p)) as [|q|q]; try lia.
    exists q, (e + Zpos p)%Z. repeat split. lia.
  - cbn [fst snd]. rewrite shr_m_of_loc. exists m, e. auto.
Qed.

Lemma round_nearest_even_pos (m : positive) (l : location) :
  exists m', round_nearest_even (Zpos m) l = Zpos m'.
Proof.
  destruct l as [|[| |]]; cbn [round_nearest_even].
  - eauto.
  - destruct (Z.even (Zpos m)); [eauto|]. exists (m + 1)%positive. reflexivity.
  - eauto.
  - exists (m + 1)%positive. reflexivity.
Qed.

Lemma binary_round_aux_sign (s : bool) (m : positive) (e : Z) (l : location) :
  (-1074 <= e)%Z ->
  (exists m' e',
     binary_round_aux binary64.prec binary64.emax s (Zpos m) e l
     = S754_finite s m' e') \/
  binary_round_aux binary64.prec binary64.emax s (Zpos m) e l
  = S754_infinity s.
Proof.
  intros He. unfold binary_round_aux.
  destruct (shr_fexp_pos m e l He) as (m1 & e1 & Hm1 & He1 & Hb1).
  destruct (shr_fexp binary64.prec binary64.emax (Zpos m) e l) as [mrs1 e1'].
  cbn [fst snd] in Hm1, He1. subst e1'. rewrite Hm1.
  destruct (round_nearest_even_pos m1 (loc_of_shr_record mrs1)) as (m2 & Hm2).
  rewrite Hm2.
  destruct (shr_fexp_pos m2 e1 loc_Exact Hb1) as (m3 & e3 & Hm3 & He3 & _).
  destruct (shr_fexp binary64.prec binary64.emax (Zpos m2) e1 loc_Exact)
    as [mrs3 e3'].
  cbn [fst snd] in Hm3, He3. subst e3'. rewrite Hm3.
  destruct (e3 <=? binary64.emax - binary64.prec)%Z; eauto.
Qed.

Lemma binary_round_sign (s : bool) (m : positive) :
  (exists m' e',
     binary_round binary64.prec binary64.emax s m 0 = S754_finite s m' e') \/
  binary_round binary64.prec binary64.emax s m 0 = S754_infinity s.
Proof.
  unfold binary_round, shl_align.
  set (e' := fexp binary64.prec binary64.emax (Zpos (digits2_pos m) + 0)).
  assert (He : (-1074 <= e')%Z).
  { unfold e', fexp, emin, binary64.prec, binary64.emax. lia. }
  destruct (e' - 0)%Z as [|p|p] eqn:E.
  - apply binary_round_aux_sign. lia.
  - apply binary_round_aux_sign. lia.
  - apply binary_round_aux_sign. exact He.
Qed.

(** A positive [int] converts to a positive float or overflows. *)
Lemma to_float_pos (z : Z) (b : binary64.float) :
  (0 < z)%Z -> binary64.to_float (binary64.Int z) = inr b ->
  exists m e, b = S754_finite false m e.
Proof.
  intros Hz. destruct z as [|p|p]; try lia.
  unfold binary64.to_float, binary64.of_int, binary_normalize.
  destruct (binary_round_sign false p) as [(m & e & H)|H]; rewrite H.
  - intros [= <-]. eauto.
  - discriminate.
Qed.

(** ** The binary64 engine in closed form *)

Lemma b64_player_turn_run c h t k :
  binary64.player_turn (b64_world c h t k)
  = match b64_turn c h (t k) with
    | inl e => inl e
    | inr h' => inr (tt, b64_world c h' t (S k))
    end.
Proof.
  unfold binary64.player_turn, b64_turn.
  unfold binary64.bind at 1. unfold binary64.random.
  cbn [b64_world binary64.rng binary64.tape binary64.cursor binary64.self].
  destruct (binary64.flt (t k) (binary64.literal 47 100));
    [|destruct (binary64.flt (t k) (binary64.literal 95 100))];
    unfold binary64.bind, binary64.get_house_net, binary64.get_config,
      binary64.lift, binary64.set_house_net;
    cbn [binary64.house_net binary64.self binary64.config binary64.rng].
  - destruct (binary64.sub h (binary64.ante c)); reflexivity.
  - destruct (binary64.add h (binary64.ante c)); reflexivity.
  - destruct (binary64.mul (binary64.ante c) (binary64.bust_multiplier c))
      as [e|p]; [reflexivity|].
    destruct (binary64.add h p); reflexivity.
Qed.

Lemma b64_repeat_turns_run c t n : forall k h,
  binary64.repeat_body n binary64.player_turn (b64_world c h t k)
  = match b64_turns c t n k h with
    | inl e => inl e
    | inr h' => inr (tt, b64_world c h' t (n + k)%nat)
    end.
Proof.
  induction n as [|n IH]; intros k h; cbn [binary64.repeat_body b64_turns].
  - reflexivity.
  - unfold binary64.bind at 1. rewrite b64_player_turn_run.
    destruct (b64_turn c h (t k)) as [e|h']; [reflexivity|].
    rewrite IH. now rewrite Nat.add_succ_r.
Qed.

Lemma b64_run_round_run c h t k :
  binary64.run_round (b64_world c h t k)
  = match b64_turns c t (Z.to_nat (binary64.players c)) k h with
    | inl e => inl e
    | inr h' =>
        inr (tt, b64_world c h' t (Z.to_nat (binary64.players c) + k)%nat)
    end.
Proof.
  unfold binary64.run_round, binary64.bind, binary64.get_config,
    binary64.for_range; cbn.
  apply b64_repeat_turns_run.
Qed.

Lemma b64_repeat_rounds_run c t m : forall k h,
  binary64.repeat_body m binary64.run_round (b64_world c h t k)
  = match b64_rounds c t m k h with
    | inl e => inl e
    | inr h' =>
        inr (tt, b64_world c h' t
                   (m * Z.to_nat (binary64.players c) + k)%nat)
    end.
Proof.
  induction m as [|m IH]; intros k h; cbn [binary64.repeat_body b64_rounds].
  - reflexivity.
  - unfold binary64.bind at 1. rewrite b64_run_round_run.
    destruct (b64_turns c t (Z.to_nat (binary64.players c)) k h)
      as [e|h']; [reflexivity|].
    rewrite IH. destruct (b64_rounds c t m _ h'); [reflexivity|].
    do 3 f_equal. cbn [Nat.mul]. lia.
Qed.

Lemma b64_simulate_run c h0 t k :
  binary64.simulate (b64_world c h0 t k)
  = match b64_rounds c t (Z.to_nat (binary64.rounds c)) k binary64.zero with
    | inl e => inl e
    | inr h =>
        match b64_total c with
        | inl e => inl e
        | inr total =>
            match b64_edge total h with
            | inl e => inl e
            | inr g =>
                inr ({| binary64.result_house_net := binary64.round h 2;
                        binary64.result_house_edge := binary64.round g 4 |},
                     b64_world c h t (b64_draws_of c + k)%nat)
            end
        end
    end.
Proof.
  unfold binary64.simulate.
  unfold binary64.bind at 1. cbn [binary64.set_house_net b64_world
    binary64.self binary64.config binary64.rng].
  unfold binary64.bind at 1. cbn [binary64.get_config binary64.self
    binary64.config].
  unfold binary64.bind at 1. unfold binary64.for_range.
  change {| binary64.self :=
              {| binary64.config := c; binary64.house_net := binary64.zero |};
            binary64.rng := {| binary64.tape := t; binary64.cursor := k |} |}
    with (b64_world c binary64.zero t k).
  rewrite b64_repeat_rounds_run.
  destruct (b64_rounds c t (Z.to_nat (binary64.rounds c)) k binary64.zero)
    as [e|h]; [reflexivity|].
  unfold binary64.bind, binary64.get_config, binary64.get_house_net,
    binary64.lift, binary64.ret, b64_total, b64_edge.
  cbn [b64_world binary64.self binary64.config binary64.house_net
       binary64.rng].
  destruct (binary64.mul (binary64.Int (binary64.rounds c * binary64.players c))
              (binary64.ante c)) as [e|total]; [reflexivity|].
  destruct (binary64.gt0 total); [|reflexivity].
  unfold b64_world at 1. cbn [binary64.self binary64.house_net].
  destruct (binary64.truediv h total); reflexivity.
Qed.

(** ** Which exceptions the binary64 engine can raise *)

Lemma to_float_error x e :
  binary64.to_float x = inl e -> e = binary64.OverflowError.
Proof.
  destruct x as [z|f]; cbn [binary64.to_float]; [|discriminate].
  destruct (binary64.of_int z); intros H; try discriminate H.
  now injection H as <-.
Qed.

Lemma fits_to_float z :
  fits z = true -> binary64.to_float (binary64.Int z) = inr (binary64.of_int z).
Proof.
  unfold fits, binary64.to_float.
  destruct (binary64.of_int z); intros H; try discriminate H; reflexivity.
Qed.

Lemma sub_error h x e :
  binary64.sub h x = inl e -> e = binary64.OverflowError.
Proof.
  unfold binary64.sub. destruct (binary64.to_float x) eqn:E; [|discriminate].
  intros [= <-]. exact (to_float_error _ _ E).
Qed.

Lemma add_error h x e :
  binary64.add h x = inl e -> e = binary64.OverflowError.
Proof.
  unfold binary64.add. destruct (binary64.to_float x) eqn:E; [|discriminate].
  intros [= <-]. exact (to_float_error _ _ E).
Qed.

Lemma mul_error x y e :
  binary64.mul x y = inl e -> e = binary64.OverflowError.
Proof.
  unfold binary64.mul.
  destruct x as [a|a], y as [b|b]; cbn [binary64.to_float];
    try discriminate.
  - destruct (binary64.of_int a); cbn; intros H; try discriminate H.
    now injection H as <-.
  - destruct (binary64.of_int b); cbn; intros H; try discriminate H.
    now injection H as <-.
Qed.

(** A divisor that passed [> 0] is a positive float once converted. *)
Lemma gt0_divisor total d :
  binary64.gt0 total = true -> binary64.to_float total = inr d ->
  (exists m e, d = S754_finite false m e) \/ d = S754_infinity false.
Proof.
  destruct total as [z|f]; cbn [binary64.gt0].
  - intros Hz Hd. left. apply (to_float_pos z d); [lia | exact Hd].
  - intros Hf [= <-].
    destruct f as [s|s| |s m e]; try destruct s; try discriminate Hf; eauto.
Qed.

Lemma truediv_gt0 h total :
  binary64.gt0 total = true ->
  binary64.truediv h total = inl binary64.OverflowError \/
  exists d,
    binary64.to_float total = inr d /\
    binary64.truediv h total = inr (binary64.fdiv h d).
Proof.
  intros Hgt. unfold binary64.truediv.
  destruct (binary64.to_float total) as [e|d] eqn:E.
  - left. now rewrite (to_float_error _ _ E).
  - right. exists d. split; [reflexivity|].
    destruct (gt0_divisor total d Hgt E) as [(m & x & ->)| ->]; reflexivity.
Qed.

Lemma b64_edge_error total h e :
  b64_edge total h = inl e -> e = binary64.OverflowError.
Proof.
  unfold b64_edge. destruct (binary64.gt0 total) eqn:Hgt; [|discriminate].
  destruct (truediv_gt0 h total Hgt) as [H|(d & _ & H)]; rewrite H; congruence.
Qed.

Lemma b64_turn_error c h r e :
  b64_turn c h r = inl e -> e = binary64.OverflowError.
Proof.
  unfold b64_turn.
  destruct (binary64.flt r (binary64.literal 47 100)); [apply sub_error|].
  destruct (binary64.flt r (binary64.literal 95 100)); [apply add_error|].
  destruct (binary64.mul _ _) eqn:E.
  - intros [= <-]. exact (mul_error _ _ _ E).
  - apply add_error.
Qed.

Lemma b64_turns_error c t n : forall k h e,
  b64_turns c t n k h = inl e -> e = binary64.OverflowError.
Proof.
  induction n as [|n IH]; intros k h e; cbn [b64_turns]; [discriminate|].
  destruct (b64_turn c h (t k)) eqn:E.
  - intros [= <-]. exact (b64_turn_error _ _ _ _ E).
  - apply IH.
Qed.

Lemma b64_rounds_error c t m : forall k h e,
  b64_rounds c t m k h = inl e -> e = binary64.OverflowError.
Proof.
  induction m as [|m IH]; intros k h e; cbn [b64_rounds]; [discriminate|].
  destruct (b64_turns c t _ k h) eqn:E.
  - intros [= <-]. exact (b64_turns_error _ _ _ _ _ _ E).
  - apply IH.
Qed.

(** ** Configurations whose integers all have a float *)

Lemma convertible_turn c :
  convertible c = true -> forall h r, exists h', b64_turn c h r = inr h'.
Proof.
  unfold convertible, b64_turn, binary64.sub, binary64.add, binary64.mul.
  intros Hc h r.
  destruct (binary64.ante c) as [a|a], (binary64.bust_multiplier c) as [b|b];
    repeat (apply andb_prop in Hc; destruct Hc as [Hc ?]);
    repeat match goal with
           | H : fits _ = true |- _ => apply fits_to_float in H; rewrite ?H
           end;
    cbn [binary64.to_float];
    destruct (binary64.flt r (binary64.literal 47 100));
    try destruct (binary64.flt r (binary64.literal 95 100));
    eauto.
Qed.

Lemma convertible_turns c t n :
  convertible c = true -> forall k h, exists h', b64_turns c t n k h = inr h'.
Proof.
  intros Hc. induction n as [|n IH]; intros k h; cbn [b64_turns]; [eauto|].
  destruct (convertible_turn c Hc h (t k)) as (h' & ->). apply IH.
Qed.

Lemma convertible_rounds c t m :
  convertible c = true -> forall k h, exists h', b64_rounds c t m k h = inr h'.
Proof.
  intros Hc. induction m as [|m IH]; intros k h; cbn [b64_rounds]; [eauto|].
  destruct (convertible_turns c t (Z.to_nat (binary64.players c)) Hc k h)
    as (h' & ->).
  apply IH.
Qed.

Lemma convertible_total c :
  convertible c = true ->
  exists total,
    b64_total c = inr total /\
    exists d, binary64.to_float total = inr d.
Proof.
  unfold convertible, b64_total, binary64.mul. intros Hc.
  destruct (binary64.ante c) as [a|a], (binary64.bust_multiplier c) as [b|b];
    repeat (apply andb_prop in Hc; destruct Hc as [Hc ?]);
    repeat match goal with
           | H : fits _ = true |- _ => apply fits_to_float in H
           end;
    try (eexists; split; [reflexivity|]; eexists; eassumption);
    match goal with
    | H : binary64.to_float
            (binary64.Int (binary64.rounds c * binary64.players c)) = _
      |- _ => rewrite H
    end;
    cbn [binary64.to_float]; eexists; (split; [reflexivity|]);
    eexists; reflexivity.
Qed.

Lemma convertible_edge c h :
  convertible c = true ->
  exists total d,
    b64_total c = inr total /\ binary64.to_float total = inr d /\
    b64_edge total h
    = inr (if binary64.gt0 total then binary64.fdiv h d else binary64.zero).
Proof.
  intros Hc. destruct (convertible_total c Hc) as (total & Ht & d & Hd).
  exists total, d. split; [exact Ht|]. split; [exact Hd|].
  unfold b64_edge. destruct (binary64.gt0 total) eqn:Hgt; [|reflexivity].
  destruct (truediv_gt0 h total Hgt) as [H|(d' & Hd' & H)].
  - unfold binary64.truediv in H. rewrite Hd in H.
    destruct (binary64.is_zero d); discriminate.
  - rewrite H. congruence.
Qed.

Lemma b64_simulate_world (w : binary64.World) :
  binary64.simulate w
  = binary64.simulate
      (b64_world (binary64.config (binary64.self w))
                 (binary64.house_net (binary64.self w))
                 (binary64.tape (binary64.rng w))
                 (binary64.cursor (binary64.rng w))).
Proof. destruct w as [[c h] [t k]]. reflexivity. Qed.

(** ** The house edge on binary64 (C1) *)

(** C1, amended: on a configuration whose integers all have a float,
    [simulate] returns; when [rounds * players * ante] is positive the
    returned [house_edge] is [round(q, 4)] for [q] the binary64 quotient of
    the accumulated [house_net] by [float(rounds * players * ante)], and
    when it is zero, negative or NaN the returned [house_edge] is 0.0. *)
Theorem house_edge_binary64_quotient (w : binary64.World) :
  let c := binary64.config (binary64.self w) in
  convertible c = true ->
  exists res w' total d,
    binary64.simulate w = inr (res, w') /\
    b64_total c = inr total /\
    binary64.to_float total = inr d /\
    (binary64.gt0 total = true ->
     binary64.result_house_edge res
     = binary64.round
         (binary64.fdiv (binary64.house_net (binary64.self w')) d) 4) /\
    (binary64.gt0 total = false ->
     binary64.result_house_edge res = binary64.zero).
Proof.
  intros c Hc. rewrite b64_simulate_world, b64_simulate_run. fold c.
  destruct (convertible_rounds c (binary64.tape (binary64.rng w))
              (Z.to_nat (binary64.rounds c)) Hc
              (binary64.cursor (binary64.rng w)) binary64.zero) as (h & ->).
  destruct (convertible_edge c h Hc) as (total & d & -> & Hd & ->).
  do 4 eexists. split; [reflexivity|]. split; [reflexivity|].
  split; [exact Hd|].
  cbn [binary64.result_house_edge binary64.house_net binary64.self b64_world].
  split; intros ->; reflexivity.
Qed.

(** The binary64 engine agrees with [house_edge_negative_denominator]:
    [Config(players=1, ante=-5, rounds=1)] with a draw of 0.0 returns
    [{"house_net": 5.0, "house_edge": 0.0}]. *)
Example house_edge_negative_denominator_binary64 :
  exists w',
    binary64.simulate
      (b64_fresh (b64_stakes 1 (binary64.Int (-5)) 1
                             (binary64.Float (binary64.of_int 1)))
                 (fun _ => binary64.zero))
    = inr ({| binary64.result_house_net := binary64.of_int 5;
              binary64.result_house_edge := binary64.zero |}, w').
Proof. eexists. vm_compute. reflexivity. Qed.

(** With [Config(players=1, ante=1, rounds=320)], 161 house wins and 159
    player wins, the quotient [2.0 / 320] is a float just above 0.00625
    and the returned [house_edge] is 0.0063. *)
Lemma house_edge_binary64_quotient_witness :
  exists res w',
    binary64.simulate
      (b64_fresh (b64_stakes 1 (binary64.Int 1) 320
                             (binary64.Float (binary64.of_int 1)))
                 (fun i => if (i <? 161)%nat then binary64.literal 5 10
                           else binary64.zero))
    = inr (res, w') /\
    binary64.result_house_edge res = binary64.literal 63 10000.
Proof.
  destruct (house_edge_binary64_quotient
              (b64_fresh (b64_stakes 1 (binary64.Int 1) 320
                                     (binary64.Float (binary64.of_int 1)))
                         (fun i => if (i <? 161)%nat then binary64.literal 5 10
                                   else binary64.zero)))
    as (res & w' & total & d & Hrun & Htotal & Hd & Hpos & _).
  - vm_compute. reflexivity.
  - exists res, w'. split; [exact Hrun|].
    vm_compute in Htotal. injection Htotal as <-.
    vm_compute in Hd. injection Hd as <-.
    rewrite (Hpos eq_refl).
    assert (Hw : binary64.simulate
                   (b64_fresh (b64_stakes 1 (binary64.Int 1) 320
                                 (binary64.Float (binary64.of_int 1)))
                      (fun i => if (i <? 161)%nat then binary64.literal 5 10
                                else binary64.zero))
                 = inr (res, w')) by exact Hrun.
    rewrite b64_simulate_world, b64_simulate_run in Hw.
    vm_compute in Hw. injection Hw as _ <-.
    vm_compute. reflexivity.
Defined.

(** The accumulator is rounded at every update: with
    [Config(players=3, ante=0.005, rounds=1)] and three house wins it
    ends just below 0.015 and the returned [house_net] is 0.01. *)
Example house_net_accumulates_in_binary64 :
  exists w',
    binary64.simulate
      (b64_fresh (b64_stakes 3 (binary64.Float (binary64.literal 5 1000)) 1
                             (binary64.Float (binary64.of_int 1)))
                 (fun _ => binary64.literal 5 10))
    = inr ({| binary64.result_house_net := binary64.literal 1 100;
              binary64.result_house_edge := binary64.of_int 1 |}, w').
Proof. eexists. vm_compute. reflexivity. Qed.

(** ** Exceptions (C7) *)

(** C7, as stated, fails: [Config(players=1, ante=10**400, rounds=1)] is a
    valid configuration ([ante] is an [int]) and the first turn's
    [self.house_net -= self.config.ante] raises [OverflowError]. *)
Lemma simulate_overflow_on_huge_ante :
  binary64.simulate
    (b64_fresh (b64_stakes 1 (binary64.Int (10 ^ 400)) 1
                           (binary64.Float (binary64.of_int 1)))
               (fun _ => binary64.zero))
  = inl binary64.OverflowError.
Proof. vm_compute. reflexivity. Qed.

(** C7, amended: [simulate] never raises [ZeroDivisionError]: the only
    exception it can raise is the [OverflowError] of converting an [int]
    that has no float.  On a configuration whose integers all have a float
    -- zero or negative [players], [rounds], [ante] and [bust_multiplier]
    included, and any float, finite or not -- it returns a result record,
    with [house_edge] 0.0 when [players * rounds * ante] is zero. *)
Theorem simulate_raises_only_overflow (w : binary64.World) :
  let c := binary64.config (binary64.self w) in
  (forall e, binary64.simulate w = inl e -> e = binary64.OverflowError) /\
  (convertible c = true ->
   exists res w',
     binary64.simulate w = inr (res, w') /\
     forall total,
       b64_total c = inr total -> b64_is_zero total = true ->
       binary64.result_house_edge res = binary64.zero).
Proof.
  intros c. rewrite b64_simulate_world, b64_simulate_run. fold c. split.
  - intros e.
    destruct (b64_rounds c _ _ _ _) as [e1|h] eqn:E1.
    { intros [= <-]. exact (b64_rounds_error _ _ _ _ _ _ E1). }
    destruct (b64_total c) as [e2|total] eqn:E2.
    { intros [= <-]. exact (mul_error _ _ _ E2). }
    destruct (b64_edge total h) as [e3|g] eqn:E3.
    { intros [= <-]. exact (b64_edge_error _ _ _ E3). }
    discriminate.
  - intros Hc.
    destruct (convertible_rounds c (binary64.tape (binary64.rng w))
                (Z.to_nat (binary64.rounds c)) Hc
                (binary64.cursor (binary64.rng w)) binary64.zero) as (h & ->).
    destruct (convertible_edge c h Hc) as (total & d & -> & Hd & ->).
    do 2 eexists. split; [reflexivity|].
    intros total' [= <-] Hz. cbn [binary64.result_house_edge].
    replace (binary64.gt0 total) with false; [reflexivity|].
    destruct total as [z|f]; cbn [b64_is_zero binary64.gt0] in *.
    + symmetry. apply Z.ltb_ge. apply Z.eqb_eq in Hz. lia.
    + destruct f; try discriminate Hz. reflexivity.
Qed.

(** A returned record need not hold finite numbers: with
    [Config(players=2, ante=1e308, rounds=1)] and two house wins the
    accumulator and the denominator both overflow to [inf] and the
    returned [house_edge] is NaN. *)
Example simulate_returns_nan :
  exists w',
    binary64.simulate
      (b64_fresh (b64_stakes 2 (binary64.Float (binary64.of_int (10 ^ 308))) 1
                             (binary64.Float (binary64.of_int 1)))
                 (fun _ => binary64.literal 5 10))
    = inr ({| binary64.result_house_net := S754_infinity false;
              binary64.result_house_edge := S754_nan |}, w').
Proof. eexists. vm_compute. reflexivity. Qed.

Lemma simulate_raises_only_overflow_witness :
  exists res w',
    binary64.simulate
      (b64_fresh (b64_stakes (-3) (binary64.Float (binary64.of_int (-5))) 0
                             (binary64.Int (-2)))
                 (fun _ => binary64.literal 99 100))
    = inr (res, w') /\
    binary64.result_house_edge res = binary64.zero.
Proof.
  destruct (simulate_raises_only_overflow
              (b64_fresh (b64_stakes (-3) (binary64.Float (binary64.of_int (-5)))
                                     0 (binary64.Int (-2)))
                         (fun _ => binary64.literal 99 100)))
    as [_ Hret].
  destruct (Hret eq_refl) as (res & w' & Hrun & Hzero).
  exists res, w'. split; [exact Hrun|].
  apply (Hzero (binary64.Float (S754_zero true))); reflexivity.
Defined.

(** ** Empty runs and successive calls on binary64 *)

Lemma b64_rounds_no_turns c t m : forall k h,
  m = O \/ Z.to_nat (binary64.players c) = O ->
  b64_rounds c t m k h = inr h.
Proof.
  induction m as [|m IH]; intros k h Hz; cbn [b64_rounds]; [reflexivity|].
  destruct Hz as [Hz|Hz]; [discriminate|].
  rewrite Hz. cbn [b64_turns]. apply IH. now right.
Qed.

(** X4: with [rounds <= 0] or [players <= 0] (negative counts included)
    and every integer of the configuration within float range, [simulate]
    reads no draw and returns [{"house_net": 0.0, "house_edge": 0.0}]. *)
Theorem simulate_nonpositive_counts_binary64 (w : binary64.World) :
  let c := binary64.config (binary64.self w) in
  (binary64.rounds c <= 0 \/ binary64.players c <= 0)%Z ->
  convertible c = true ->
  exists w',
    binary64.simulate w
    = inr ({| binary64.result_house_net := binary64.zero;
              binary64.result_house_edge := binary64.zero |}, w') /\
    binary64.rng w' = binary64.rng w.
Proof.
  intros c Hn Hc. rewrite b64_simulate_world, b64_simulate_run. fold c.
  rewrite b64_rounds_no_turns by (destruct Hn; [left | right]; lia).
  destruct (convertible_edge c binary64.zero Hc) as (total & d & -> & Hd & ->).
  assert (Hg : (if binary64.gt0 total
                then binary64.fdiv binary64.zero d else binary64.zero)
               = binary64.zero).
  { destruct (binary64.gt0 total) eqn:Hgt; [|reflexivity].
    destruct (gt0_divisor total d Hgt Hd) as [(m & e & ->)| ->]; reflexivity. }
  rewrite Hg. eexists. split; [reflexivity|].
  cbn [binary64.rng b64_world]. unfold b64_draws_of.
  replace (Z.to_nat (binary64.rounds c) * Z.to_nat (binary64.players c)
           + binary64.cursor (binary64.rng w))%nat
    with (binary64.cursor (binary64.rng w)) by (destruct Hn; nia).
  destruct (binary64.rng w); reflexivity.
Qed.

Lemma simulate_nonpositive_counts_binary64_witness :
  exists w',
    binary64.simulate
      (b64_fresh (b64_stakes (-3) (binary64.Int 5) (-2)
                             (binary64.Float (binary64.of_int 1)))
                 (fun _ => binary64.literal 5 10))
    = inr ({| binary64.result_house_net := binary64.zero;
              binary64.result_house_edge := binary64.zero |}, w') /\
    binary64.rng w'
    = binary64.rng
        (b64_fresh (b64_stakes (-3) (binary64.Int 5) (-2)
                               (binary64.Float (binary64.of_int 1)))
                   (fun _ => binary64.literal 5 10)).
Proof.
  apply (simulate_nonpositive_counts_binary64
           (b64_fresh (b64_stakes (-3) (binary64.Int 5) (-2)
                                  (binary64.Float (binary64.of_int 1)))
                      (fun _ => binary64.literal 5 10))).
  - left. cbn. lia.
  - vm_compute. reflexivity.
Defined.

Lemma b64_turns_rest c t k n : forall j h,
  b64_turns c t n (k + j) h = b64_turns c (b64_rest k t) n j h.
Proof.
  induction n as [|n IH]; intros j h; cbn [b64_turns]; [reflexivity|].
  unfold b64_rest at 1.
  destruct (b64_turn c h (t (k + j)%nat)); [reflexivity|].
  rewrite <- IH. now rewrite Nat.add_succ_r.
Qed.

Lemma b64_rounds_rest c t k m : forall j h,
  b64_rounds c t m (k + j) h = b64_rounds c (b64_rest k t) m j h.
Proof.
  induction m as [|m IH]; intros j h; cbn [b64_rounds]; [reflexivity|].
  rewrite <- b64_turns_rest.
  destruct (b64_turns c t _ (k + j) h); [reflexivity|].
  rewrite <- IH. f_equal. lia.
Qed.

Lemma b64_simulate_fresh_rest c h t k :
  convertible c = true ->
  exists res h' w2,
    binary64.simulate (b64_world c h t k)
    = inr (res, b64_world c h' t (b64_draws_of c + k)) /\
    binary64.simulate (b64_fresh c (b64_rest k t)) = inr (res, w2).
Proof.
  intros Hc. unfold b64_fresh, binary64.__init__.
  change {| binary64.self :=
              {| binary64.config := c; binary64.house_net := binary64.zero |};
            binary64.rng :=
              {| binary64.tape := b64_rest k t; binary64.cursor := 0 |} |}
    with (b64_world c binary64.zero (b64_rest k t) 0).
  rewrite !b64_simulate_run. rewrite <- b64_rounds_rest, Nat.add_0_r.
  destruct (convertible_rounds c t (Z.to_nat (binary64.rounds c)) Hc
              k binary64.zero) as (h' & ->).
  destruct (convertible_edge c h' Hc) as (total & d & -> & _ & ->).
  do 3 eexists. split; reflexivity.
Qed.

(** X10: on a configuration whose integers all have a float, [n]
    successive [simulate] calls on one engine all return; between them
    they read [n * max(0, rounds) * max(0, players)] draws, and the [i]-th
    call returns exactly what a newly constructed engine with the same
    configuration returns on the draws left when it starts. *)
Theorem simulate_calls_independent_binary64 (n : nat) (c : binary64.Config)
    (h : binary64.float) (t : nat -> binary64.float) (k : nat) :
  convertible c = true ->
  exists rs w',
    binary64.simulate_calls n (b64_world c h t k) = inr (rs, w') /\
    List.length rs = n /\
    binary64.rng w'
    = {| binary64.tape := t; binary64.cursor := n * b64_draws_of c + k |} /\
    forall i r, nth_error rs i = Some r ->
      exists wi,
        binary64.simulate (b64_fresh c (b64_rest (i * b64_draws_of c + k) t))
        = inr (r, wi).
Proof.
  intros Hc. revert h k.
  induction n as [|n IH]; intros h k; cbn [binary64.simulate_calls].
  - exists [], (b64_world c h t k). repeat split.
    intros [|i] r Hr; discriminate.
  - destruct (b64_simulate_fresh_rest c h t k Hc)
      as (r0 & h' & w2 & Hrun & Hfresh).
    destruct (IH h' (b64_draws_of c + k)%nat)
      as (rs & w' & Hcalls & Hlen & Hrng & Hnth).
    exists (r0 :: rs), w'. unfold binary64.bind, binary64.ret.
    rewrite Hrun, Hcalls.
    split; [reflexivity|]. split; [cbn; now rewrite Hlen|].
    split.
    + rewrite Hrng. f_equal. cbn [Nat.mul]. lia.
    + intros [|i] r Hr; cbn [nth_error] in Hr.
      * injection Hr as <-. exists w2. exact Hfresh.
      * destruct (Hnth i r Hr) as (wi & Hwi). exists wi.
        replace (S i * b64_draws_of c + k)%nat
          with (i * b64_draws_of c + (b64_draws_of c + k))%nat
          by (cbn [Nat.mul]; lia).
        exact Hwi.
Qed.

Lemma simulate_calls_independent_binary64_witness :
  exists rs w' r wi,
    binary64.simulate_calls 2
      (b64_world (b64_stakes 2 (binary64.Int 5) 3
                             (binary64.Float (binary64.of_int 1)))
                 binary64.zero (fun _ => binary64.literal 5 10) 0)
    = inr (rs, w') /\
    nth_error rs 1 = Some r /\
    binary64.simulate
      (b64_fresh (b64_stakes 2 (binary64.Int 5) 3
                             (binary64.Float (binary64.of_int 1)))
                 (b64_rest 6 (fun _ => binary64.literal 5 10)))
    = inr (r, wi).
Proof.
  destruct (simulate_calls_independent_binary64 2
              (b64_stakes 2 (binary64.Int 5) 3
                          (binary64.Float (binary64.of_int 1)))
              binary64.zero (fun _ => binary64.literal 5 10) 0)
    as (rs & w' & Hrun & Hlen & _ & Hnth).
  - vm_compute. reflexivity.
  - destruct rs as [|r0 [|r1 rs]]; try discriminate Hlen.
    destruct (Hnth 1%nat r1 eq_refl) as (wi & Hwi).
    exists (r0 :: r1 :: rs), w', r1, wi.
    split; [exact Hrun|]. split; [reflexivity | exact Hwi].
Defined.
